(** * lorax batch client: admission scheduler, warmup and batching loop

    A shallow embedding of [server/lorax_server/batch/__init__.py].

    Numbers.  The lengths and budgets of the source are Python [int]s and are
    modelled as [Z].  The two cost updates of [next_batch] are written with
    Python's true division [/], whose result is a [float]; the quotient is
    modelled as an exact rational ([Q]).  For the block size the module
    uses ([BLOCK_SIZE = 16], a power of two) binary floating point computes
    these quotients and products without rounding as long as the magnitudes
    stay below 2^53, so on those inputs the rational is the run-time value.
    Rationals are compared with [==] ([Qeq]), as they are not kept in lowest
    terms.

    Messages.  The protobuf classes of [generate_pb2] are generated code
    and are modelled as plain records with the fields the source sets. *)

From Stdlib Require Import ZArith QArith Qround Lqa List Lia String Bool.
From stdpp Require Import base list gmap.
Import ListNotations.

Local Open Scope Z_scope.

(** ** Messages of [generate_pb2] *)

Record NextTokenChooserParameters := {
  temperature : Q;
  top_k : Z;
  top_p : Q;
  typical_p : Q;
  do_sample : bool;
  seed : Z;
  repetition_penalty : Q;
  watermark : bool;
  adapter_id : string;
  schema : option string;
  return_k_alternatives : Z
}.

Record StoppingCriteriaParameters := {
  max_new_tokens : Z;
  stop_sequences : list string;
  ignore_eos_token : bool
}.

Record Request := {
  id : Z;
  inputs : string;
  truncate : Z;
  parameters : NextTokenChooserParameters;
  stopping_parameters : StoppingCriteriaParameters;
  adapter_index : Z;
  prefill_logprobs : bool;
  apply_chat_template : bool
}.

(** [max_tokens] receives [prefill_tokens + decode_tokens], a [float] once
    an entry has been charged. *)
Record Batch := {
  batch_id : Z;
  size : Z;
  requests : list Request;
  max_tokens : Q
}.

Record GeneratedText := { text : string }.

Record Generation := {
  request_id : Z;
  generated_text : GeneratedText
}.

Record WarmupRequest := {
  warmup_batch : Batch;
  warmup_max_new_tokens : Z
}.

(** ** Module constants and the [Entry] dataclass *)

Definition BLOCK_SIZE : Z := 16.

Record Entry := {
  request : Request;
  input_length : Z
}.

(** ** Exceptions *)

Inductive exn := ZeroDivisionError | RpcError.

Inductive result (A : Type) :=
| Ok (a : A)
| Raise (e : exn).
Arguments Ok {A} a.
Arguments Raise {A} e.

(** ** [create_entry] *)

Definition create_entry (inputs0 : string) (input_length0 max_input_length
                         max_total_tokens : Z) : Entry :=
  let effective_max_new_tokens := max_total_tokens - input_length0 in
  {| request := {|
       id := 0;
       inputs := inputs0;
       truncate := max_input_length;
       parameters := {|
         temperature := 1; top_k := 0; top_p := 1; typical_p := 1;
         do_sample := false; seed := 0; repetition_penalty := 1;
         watermark := false; adapter_id := ""; schema := None;
         return_k_alternatives := 0 |};
       stopping_parameters := {|
         max_new_tokens := effective_max_new_tokens;
         stop_sequences := [];
         ignore_eos_token := false |};
       adapter_index := 0;
       prefill_logprobs := true;
       apply_chat_template := false |};
     input_length := input_length0 |}.

(** ** [next_batch] *)

(** [((n + block_size - 1) / block_size) * block_size] with [/] the true
    division of Python 3: the amount one cost update adds.  The caller
    has checked [block_size <> 0]. *)
Definition block_charge (block_size n : Z) : Q :=
  ((inject_Z (n + block_size - 1) / inject_Z block_size) * inject_Z block_size)%Q.

(** The [if window_size is None ... else min(...)] of lines 261-267. *)
Definition entry_max_new_tokens (window_size : option Z) (entry : Entry) : Z :=
  match window_size with
  | None => max_new_tokens (stopping_parameters (request entry))
  | Some w =>
      Z.min (w - input_length entry)
            (max_new_tokens (stopping_parameters (request entry)))
  end.

(** The locals of [next_batch] when its loop is left. *)
Record Locals := {
  batch_requests : list Request;
  prefill_tokens : Q;
  decode_tokens : Q
}.

Section Scheduler.

Variables (max_batch_prefill_tokens token_budget block_size : Z)
          (window_size : option Z).

(** The test of line 270 on the updated totals. *)
Definition over_budget (prefill_tokens0 decode_tokens0 : Q) : bool :=
  negb (Qle_bool prefill_tokens0 (inject_Z max_batch_prefill_tokens))
  || negb (Qle_bool (prefill_tokens0 + decode_tokens0) (inject_Z token_budget)).

(** The [while] loop of lines 254-276.  Every iteration pops the head of
    [entries], so the loop is a recursion on the queue.  The result is the
    queue as the loop leaves it, with the locals, or the exception raised
    by a division by zero (the popped entry is then gone from the list). *)
Fixpoint next_batch_loop (entries : list Entry) (l : Locals)
  : list Entry * result Locals :=
  match entries with
  | [] => ([], Ok l)
  | entry :: rest =>
      if Qle_bool (prefill_tokens l + decode_tokens l) (inject_Z token_budget)
      then
        if block_size =? 0 then (rest, Raise ZeroDivisionError)
        else
          let prefill_tokens' :=
            (prefill_tokens l + block_charge block_size (input_length entry))%Q in
          let max_new_tokens' := entry_max_new_tokens window_size entry in
          let decode_tokens' :=
            (decode_tokens l + block_charge block_size max_new_tokens')%Q in
          if over_budget prefill_tokens' decode_tokens'
          then (entry :: rest,
                Ok {| batch_requests := batch_requests l;
                      prefill_tokens := prefill_tokens';
                      decode_tokens := decode_tokens' |})
          else next_batch_loop rest
                 {| batch_requests := batch_requests l ++ [request entry];
                    prefill_tokens := prefill_tokens';
                    decode_tokens := decode_tokens' |}
      else (entry :: rest, Ok l)
  end.

Definition init_locals : Locals :=
  {| batch_requests := []; prefill_tokens := 0; decode_tokens := 0 |}.

(** [next_batch]: the state threaded through is the list object [entries]
    and the module global [_ID]. *)
Definition next_batch (entries : list Entry) (_ID : Z)
  : (list Entry * Z) * result (option Batch) :=
  match next_batch_loop entries init_locals with
  | (entries', Raise e) => ((entries', _ID), Raise e)
  | (entries', Ok l) =>
      match batch_requests l with
      | [] => ((entries', _ID), Ok None)
      | _ :: _ =>
          let next_id := _ID in
          ((entries', _ID + 1),
           Ok (Some {| batch_id := next_id;
                       size := Z.of_nat (length (batch_requests l));
                       requests := batch_requests l;
                       max_tokens := (prefill_tokens l + decode_tokens l)%Q |}))
      end
  end.

End Scheduler.


(** ** The engine, reached through [LoraxServiceStub] *)

(** Running a loop of the client: it finishes, raises, or uses up the fuel
    the model gives it. *)
Inductive outcome (A : Type) :=
| Done (a : A)
| Raised (e : exn)
| OutOfFuel.
Arguments Done {A} a.
Arguments Raised {A} e.
Arguments OutOfFuel {A}.

#[global] Instance outcome_ret : MRet outcome := fun A a => Done a.

#[global] Instance outcome_bind : MBind outcome := fun A B k c =>
  match c with
  | Done a => k a
  | Raised e => Raised e
  | OutOfFuel => OutOfFuel
  end.

Definition lift {A : Type} (r : result A) : outcome A :=
  match r with
  | Ok a => Done a
  | Raise e => Raised e
  end.

(** What the list [batches] of [run] holds: the handle unpacked from the
    first Prefill, or the whole pair a later [prefill] call returned. *)
Inductive ActiveItem (CachedBatch : Type) :=
| Handle (cached_batch : CachedBatch)
| Tuple (new_cached_batch : CachedBatch * list Generation).
Arguments Handle {CachedBatch} cached_batch.
Arguments Tuple {CachedBatch} new_cached_batch.

(** The calls of the stub that the module makes.  [Client] is the state of
    the channel and of the engine behind it, [CachedBatch] the handle the
    engine gives out; a call that fails raises. *)
Class LoraxServiceStub (Client CachedBatch : Type) := {
  Warmup : Client -> WarmupRequest -> result (Client * Z);
  Prefill : Client -> Batch -> result (Client * (CachedBatch * list Generation));
  Decode : Client -> list (ActiveItem CachedBatch) ->
           result (Client * (CachedBatch * list Generation))
}.

(** ** [add_outputs] *)

(** [outputs] is a [defaultdict(list)]: a missing key reads as the empty
    list. *)
Definition add_outputs (generations : list Generation)
    (outputs : gmap Z (list string)) : gmap Z (list string) :=
  foldl (fun outputs0 generation =>
           <[request_id generation :=
               default [] (outputs0 !! request_id generation)
               ++ [text (generated_text generation)]]> outputs0)
        outputs generations.

(** ** [warmup] *)

Definition string_repeat (s : string) (n : Z) : string :=
  Nat.iter (Z.to_nat n) (String.append s) EmptyString.

Section Warmup.

Variables (max_input_length max_batch_prefill_tokens max_total_tokens : Z).

(** The request appended at lines 129-155. *)
Definition warmup_request (truncate_length : Z) : Request :=
  {| id := 0;
     inputs := string_repeat "_test " max_input_length;
     truncate := max_input_length;
     parameters := {|
       temperature := 9 # 10; top_k := 10; top_p := 9 # 10;
       typical_p := 9 # 10; do_sample := false; seed := 0;
       repetition_penalty := 12 # 10; watermark := true; adapter_id := "";
       schema := None; return_k_alternatives := 0 |};
     stopping_parameters := {|
       max_new_tokens := max_total_tokens - truncate_length;
       stop_sequences := [];
       ignore_eos_token := false |};
     adapter_index := 0;
     prefill_logprobs := true;
     apply_chat_template := false |}.

(** The [while n_tokens < max_batch_prefill_tokens] loop.  With
    [max_input_length <= 0] it does not end, so the model takes fuel. *)
Fixpoint warmup_loop (fuel : nat) (n_tokens : Z) (requests0 : list Request)
  : option (list Request) :=
  if n_tokens <? max_batch_prefill_tokens then
    match fuel with
    | O => None
    | S fuel' =>
        let truncate_length :=
          Z.min max_input_length (max_batch_prefill_tokens - n_tokens) in
        warmup_loop fuel' (n_tokens + max_input_length)
                    (requests0 ++ [warmup_request truncate_length])
    end
  else Some requests0.

(** Lines 123-169: the message handed to the Warmup call. *)
Definition warmup_message (fuel : nat) : option WarmupRequest :=
  match warmup_loop fuel 0 [] with
  | None => None
  | Some requests0 =>
      let batch := {| batch_id := 0;
                      size := Z.of_nat (length requests0);
                      requests := requests0;
                      max_tokens := 0 |} in
      let max_new_tokens0 := max_total_tokens - max_input_length in
      Some {| warmup_batch := batch; warmup_max_new_tokens := max_new_tokens0 |}
  end.

(** The requests [k] iterations append, the first of them started with
    [n_tokens] tokens so far. *)
Fixpoint warmup_appended (k : nat) (n_tokens : Z) : list Request :=
  match k with
  | O => []
  | S k' =>
      warmup_request (Z.min max_input_length (max_batch_prefill_tokens - n_tokens))
      :: warmup_appended k' (n_tokens + max_input_length)
  end.

Definition warmup {Client CachedBatch : Type}
    `{!LoraxServiceStub Client CachedBatch}
    (fuel : nat) (client : Client) : outcome (Client * Z) :=
  match warmup_message fuel with
  | None => OutOfFuel
  | Some request0 => lift (Warmup client request0)
  end.

End Warmup.

(** ** The continuous-batching loop of [run] (lines 83-101) *)

(** What the loop reads and writes: the list [entries], the global [_ID],
    the channel, [outputs], the list [batches] of the iteration, and the
    count of the progress bar. *)
Record RunState (Client CachedBatch : Type) := {
  entries : list Entry;
  _ID : Z;
  client : Client;
  outputs : gmap Z (list string);
  batches : list (ActiveItem CachedBatch);
  pbar : Z
}.
Arguments entries {Client CachedBatch} r.
Arguments _ID {Client CachedBatch} r.
Arguments client {Client CachedBatch} r.
Arguments outputs {Client CachedBatch} r.
Arguments batches {Client CachedBatch} r.
Arguments pbar {Client CachedBatch} r.

Section Run.

Context {Client CachedBatch : Type} `{!LoraxServiceStub Client CachedBatch}.

Variables (max_batch_prefill_tokens token_budget : Z) (window_size : option Z).

Local Abbreviation State := (RunState Client CachedBatch).

(** [prefill] and [decode] return the pair [(resp.batch, resp.generations)]. *)
Definition prefill (client0 : Client) (batch : Batch)
  : result (Client * (CachedBatch * list Generation)) :=
  Prefill client0 batch.

Definition decode (client0 : Client) (batches0 : list (ActiveItem CachedBatch))
  : result (Client * (CachedBatch * list Generation)) :=
  Decode client0 batches0.

(** The call [next_batch(entries, max_batch_prefill_tokens, token_budget,
    BLOCK_SIZE, window_size)] on the state of the loop. *)
Definition call_next_batch (st : State) : result (State * option Batch) :=
  match next_batch max_batch_prefill_tokens token_budget BLOCK_SIZE window_size
                   (entries st) (_ID st) with
  | ((entries', _ID'), Ok b) =>
      Ok ({| entries := entries'; _ID := _ID'; client := client st;
             outputs := outputs st; batches := batches st; pbar := pbar st |}, b)
  | (_, Raise e) => Raise e
  end.

(** The inner [while new_batch := next_batch(...)] of lines 92-95.
    [generations] is the variable bound by the first [prefill] of the
    iteration: the inner loop does not assign it. *)
Fixpoint admission_loop (fuel : nat) (generations : list Generation) (st : State)
  : outcome State :=
  match fuel with
  | O => OutOfFuel
  | S fuel' =>
      '(st1, new_batch) ← lift (call_next_batch st);
      match new_batch with
      | None => Done st1
      | Some new_batch0 =>
          '(client', new_cached_batch) ← lift (prefill (client st1) new_batch0);
          admission_loop fuel' generations
            {| entries := entries st1; _ID := _ID st1; client := client';
               outputs := add_outputs generations (outputs st1);
               batches := batches st1 ++ [Tuple new_cached_batch];
               pbar := pbar st1 |}
      end
  end.

(** The outer [while batch := next_batch(...)] of lines 86-101. *)
Fixpoint run_loop (fuel : nat) (st : State) : outcome State :=
  match fuel with
  | O => OutOfFuel
  | S fuel' =>
      '(st1, batch) ← lift (call_next_batch st);
      match batch with
      | None => Done st1
      | Some batch0 =>
          '(client1, (cached_batch, generations)) ←
            lift (prefill (client st1) batch0);
          st2 ← admission_loop fuel' generations
                  {| entries := entries st1; _ID := _ID st1; client := client1;
                     outputs := add_outputs generations (outputs st1);
                     batches := [Handle cached_batch];
                     pbar := pbar st1 |};
          '(client3, (cached_batch', generations')) ←
            lift (decode (client st2) (batches st2));
          run_loop fuel'
            {| entries := entries st2; _ID := _ID st2; client := client3;
               outputs := add_outputs generations' (outputs st2);
               batches := batches st2;
               pbar := pbar st2 + 1 |}
      end
  end.

End Run.

(** ** The entries of [run] (lines 70-80) *)


(** ** What the specification calls the rounded cost *)

(** [ceil(n / block_size) * block_size], in the specification's words: [n]
    rounded up to the next multiple of [block_size]. *)
Definition round_up_to_block (block_size n : Z) : Z :=
  Qceiling (inject_Z n / inject_Z block_size) * block_size.

(** ** Sums of costs and the shape of a call's outcome *)

Fixpoint Qsum (l : list Q) : Q :=
  match l with
  | [] => 0%Q
  | x :: l' => (x + Qsum l')%Q
  end.

Fixpoint Zsum (l : list Z) : Z :=
  match l with
  | [] => 0
  | x :: l' => x + Zsum l'
  end.

(** What [next_batch] adds to [prefill_tokens] and to [decode_tokens] for
    one entry. *)
Definition prefill_cost (block_size : Z) (e : Entry) : Q :=
  block_charge block_size (input_length e).

Definition decode_cost (block_size : Z) (window_size : option Z) (e : Entry) : Q :=
  block_charge block_size (entry_max_new_tokens window_size e).

(** The outcome the queue decomposition describes: nothing admitted and the
    queue as it was, or the first [k >= 1] entries admitted in order and the
    rest of the queue left. *)
Definition decomposes (entries0 : list Entry) (_ID0 : Z)
    (out : (list Entry * Z) * result (option Batch)) : Prop :=
  out = ((entries0, _ID0), Ok None) \/
  exists (k : nat) (b : Batch),
    (1 <= k <= length entries0)%nat /\
    out = ((drop k entries0, _ID0 + 1), Ok (Some b)) /\
    requests b = map request (take k entries0) /\
    size b = Z.of_nat k /\
    batch_id b = _ID0.

(** [m'] has every key of [m], with the list of [m] extended at its end. *)
Definition outputs_extend (m m' : gmap Z (list string)) : Prop :=
  forall (k : Z) (l : list string),
    m !! k = Some l -> exists l', m' !! k = Some (l ++ l').

(** ** An engine to run the loop on *)

(** The handle of a batch is its id.  A Prefill answers with one generation
    that names the batch; a Decode answers with none.  The state of the
    client is the log of the lists the Decode calls received. *)
Definition echo_generation (batch : Batch) : Generation :=
  {| request_id := batch_id batch;
     generated_text :=
       {| text := if batch_id batch =? 0 then "first" else "later" |} |}.

#[global] Instance echo_stub : LoraxServiceStub (list (list (ActiveItem Z))) Z := {
  Warmup client0 _ := Ok (client0, 1000);
  Prefill client0 batch := Ok (client0, (batch_id batch, [echo_generation batch]));
  Decode client0 batches0 := Ok (batches0 :: client0, (0, []))
}.

Definition initial_state {Client CachedBatch : Type}
    (entries0 : list Entry) (client0 : Client) : RunState Client CachedBatch :=
  {| entries := entries0; _ID := 0; client := client0; outputs := ∅;
     batches := []; pbar := 0 |}.

(** * [server/lorax_server/models/__init__.py] *)

(** ** What [get_model] raises, reads and calls *)

Inductive pyexn :=
| ValueError (msg : string)
| RuntimeError (msg : string)
| KeyError (key : string)
| EnvironmentError.

Inductive mresult (A : Type) :=
| Return (a : A)
| Throw (e : pyexn).
Arguments Return {A} a.
Arguments Throw {A} e.

#[global] Instance mresult_ret : MRet mresult := fun A a => Return a.

#[global] Instance mresult_bind : MBind mresult := fun A B k c =>
  match c with
  | Return a => k a
  | Throw e => Throw e
  end.

Inductive torch_dtype := torch_float16 | torch_bfloat16.

(** The classes [get_model] instantiates. *)
Inductive ModelClass :=
| GalacticaSharded | FlashBert | FlashDistilBert | FlashSantacoderSharded
| BLOOMSharded | MPTSharded | FlashNeoXSharded | FlashLlama | FlashGPT2
| FlashRWSharded | FlashMistral | FlashMixtral | FlashQwen | FlashQwen2
| FlashPhi | FlashPhi3 | FlashGemma | FlashCohere | FlashDbrx
| OPTSharded | T5Sharded.

#[global] Instance ModelClass_eq_dec : EqDecision ModelClass.
Proof. solve_decision. Defined.

Inductive pyvalue :=
| PStr (s : string)
| POptStr (o : option string)
| PBool (b : bool)
| PDtype (d : torch_dtype).

(** A constructor call as [get_model] writes it: the class, the positional
    arguments and the keyword arguments.  What the constructor does with
    them is outside this module. *)
Record ModelCall := {
  model_class : ModelClass;
  args : list pyvalue;
  kwargs : list (string * pyvalue)
}.

(** The file system and the configuration loader.  [as_posix] is
    [.absolute().as_posix()], [joinpath] the [/] of paths;
    [get_config_dict] takes the path or the model id, the revision and
    [trust_remote_code], and gives the configuration as a dictionary (of
    which only ["model_type"] is read).  The calls that touch files may
    raise. *)
Class ModelFiles (Path : Type) := {
  get_s3_model_local_dir : string -> Path;
  as_posix : Path -> string;
  joinpath : Path -> string -> Path;
  listdir : string -> mresult (list string);
  get_config_dict :
    Path + string -> option string -> bool -> mresult (gmap string string)
}.

(** [needle in haystack] for strings. *)
Fixpoint contains (needle haystack : string) : bool :=
  String.prefix needle haystack
  || match haystack with
     | EmptyString => false
     | String _ haystack' => contains needle haystack'
     end.

(** ** [get_model] *)

Definition get_model {Path : Type} `{!ModelFiles Path}
    (model_id adapter_id : string) (revision : option string) (sharded : bool)
    (quantize : option string) (compile : bool) (dtype : option string)
    (trust_remote_code : bool) (source adapter_source : string)
  : mresult ModelCall :=
  '(config_dict, model_id) ←
    (if (source =? "s3")%string then
       let model_path : Path := get_s3_model_local_dir model_id in
       files ← listdir (as_posix model_path);
       let model_path : Path :=
         match files with
         | [file] => joinpath model_path file
         | _ => model_path
         end in
       config_dict ← get_config_dict (inl model_path) revision trust_remote_code;
       Return (config_dict, as_posix model_path)
     else if (source =? "hub")%string then
       config_dict ← get_config_dict (inr model_id) revision trust_remote_code;
       Return (config_dict, model_id)
     else Throw (ValueError ("Unknown source " ++ source)%string));
  model_type ←
    match config_dict !! "model_type"%string with
    | Some t => Return t
    | None => Throw (KeyError "model_type")
    end;
  dtype ←
    match dtype with
    | None => Return torch_float16
    | Some d =>
        if (d =? "float16")%string then Return torch_float16
        else if (d =? "bfloat16")%string then Return torch_bfloat16
        else Throw (RuntimeError ("Unknown dtype " ++ d)%string)
    end;
  let keywords :=
    [("quantize"%string, POptStr quantize); ("compile"%string, PBool compile);
     ("dtype"%string, PDtype dtype);
     ("trust_remote_code"%string, PBool trust_remote_code)] in
  let plain (class : ModelClass) :=
    Return {| model_class := class;
            args := [PStr model_id; POptStr revision];
            kwargs := keywords |} in
  let with_adapter (class : ModelClass) :=
    Return {| model_class := class;
            args := [PStr model_id; PStr adapter_id; PStr adapter_source;
                     POptStr revision];
            kwargs := keywords |} in
  if contains "facebook/galactica" model_id then
    Return {| model_class := GalacticaSharded;
            args := [PStr model_id; POptStr revision];
            kwargs :=
              [("quantize"%string, POptStr quantize);
               ("compile"%string, PBool compile);
               ("dtype"%string, PDtype dtype);
               ("dtypetrust_remote_code"%string, PBool trust_remote_code)] |}
  else if (model_type =? "bert")%string then
    Return {| model_class := FlashBert;
            args := [PStr model_id];
            kwargs := [("revision"%string, POptStr revision);
                       ("dtype"%string, PDtype dtype)] |}
  else if (model_type =? "distilbert")%string then
    Return {| model_class := FlashDistilBert;
            args := [PStr model_id];
            kwargs := [("revision"%string, POptStr revision);
                       ("dtype"%string, PDtype dtype)] |}
  else if String.prefix "bigcode/" model_id
          || (model_type =? "gpt_bigcode")%string then
    plain FlashSantacoderSharded
  else if (model_type =? "bloom")%string then plain BLOOMSharded
  else if (model_type =? "mpt")%string then
    Return {| model_class := MPTSharded;
            args := [PStr model_id; POptStr revision];
            kwargs :=
              [("quantize"%string, POptStr quantize);
               ("compile"%string, PBool compile);
               ("trust_remote_code"%string, PBool trust_remote_code)] |}
  else if (model_type =? "gpt_neox")%string then plain FlashNeoXSharded
  else if (model_type =? "llama")%string then with_adapter FlashLlama
  else if (model_type =? "gpt2")%string then with_adapter FlashGPT2
  else if (model_type =? "RefinedWeb")%string
          || (model_type =? "RefinedWebModel")%string
          || (model_type =? "falcon")%string then plain FlashRWSharded
  else if (model_type =? "mistral")%string then with_adapter FlashMistral
  else if (model_type =? "mixtral")%string then with_adapter FlashMixtral
  else if (model_type =? "qwen")%string then with_adapter FlashQwen
  else if (model_type =? "qwen2")%string then with_adapter FlashQwen2
  else if (model_type =? "phi-msft")%string || (model_type =? "phi")%string
  then with_adapter FlashPhi
  else if (model_type =? "phi3")%string then with_adapter FlashPhi3
  else if (model_type =? "gemma")%string then with_adapter FlashGemma
  else if (model_type =? "cohere")%string then with_adapter FlashCohere
  else if (model_type =? "dbrx")%string then with_adapter FlashDbrx
  else if (model_type =? "opt")%string then plain OPTSharded
  else if (model_type =? "t5")%string then plain T5Sharded
  else Throw (ValueError ("Unsupported model type " ++ model_type)%string).

(** The model types the chain of tests names. *)
Definition supported_model_types : list string :=
  ["bert"; "distilbert"; "gpt_bigcode"; "bloom"; "mpt"; "gpt_neox"; "llama";
   "gpt2"; "RefinedWeb"; "RefinedWebModel"; "falcon"; "mistral"; "mixtral";
   "qwen"; "qwen2"; "phi-msft"; "phi"; "phi3"; "gemma"; "cohere"; "dbrx";
   "opt"; "t5"]%string.

(** The classes that are handed [adapter_id] and [adapter_source]. *)
Definition adapter_classes : list ModelClass :=
  [FlashLlama; FlashGPT2; FlashMistral; FlashMixtral; FlashQwen; FlashQwen2;
   FlashPhi; FlashPhi3; FlashGemma; FlashCohere; FlashDbrx].

(** A hub on which every model has the configuration [config]. *)
Definition fixed_config (config : gmap string string) : ModelFiles string := {|
  get_s3_model_local_dir model_id := ("/data/" ++ model_id)%string;
  as_posix path := path;
  joinpath path file := (path ++ "/" ++ file)%string;
  listdir _ := Return ["snapshot"%string];
  get_config_dict _ _ _ := Return config
|}.

(** ** Arithmetic of the cost update *)



Lemma Qceiling_div_pos (n b : Z) :
  0 < b -> Qceiling (inject_Z n / inject_Z b) = (n + b - 1) / b.
Proof.
  intros Hb. destruct b as [|p|p]; try lia.
  unfold Qceiling, Qfloor, Qdiv, Qinv, Qmult, Qopp, inject_Z. simpl.
  rewrite Z.mul_1_r, Pos.mul_1_l.
  assert (Hp : 0 < Z.pos p) by lia.
  pose proof (Z.div_mod (- n) (Z.pos p) ltac:(lia)) as Hdm.
  pose proof (Z.mod_pos_bound (- n) (Z.pos p) Hp) as Hm.
  apply Z.div_unique with (r := Z.pos p - 1 - (- n) mod Z.pos p).
  - left. lia.
  - nia.
Qed.



(** ** The loop of [next_batch] *)

Section SchedulerFacts.

Variables (max_batch_prefill_tokens token_budget block_size : Z)
          (window_size : option Z).

Local Abbreviation loop :=
  (next_batch_loop max_batch_prefill_tokens token_budget block_size window_size).
Local Abbreviation over :=
  (over_budget max_batch_prefill_tokens token_budget).
Local Abbreviation pcost := (prefill_cost block_size).
Local Abbreviation dcost := (decode_cost block_size window_size).

Lemma over_budget_false (p d : Q) :
  over p d = false <->
  (p <= inject_Z max_batch_prefill_tokens /\ p + d <= inject_Z token_budget)%Q.
Proof.
  unfold over_budget. rewrite orb_false_iff, !negb_false_iff, !Qle_bool_iff.
  reflexivity.
Qed.


(** One iteration that rejects its entry: the entry is put back at the
    front, nothing is appended to [batch_requests], and the loop is left. *)
Lemma next_batch_loop_reject (entry : Entry) (rest : list Entry) (l : Locals) :
  Qle_bool (prefill_tokens l + decode_tokens l) (inject_Z token_budget) = true ->
  block_size <> 0 ->
  over (prefill_tokens l + pcost entry) (decode_tokens l + dcost entry) = true ->
  loop (entry :: rest) l =
    (entry :: rest,
     Ok {| batch_requests := batch_requests l;
           prefill_tokens := (prefill_tokens l + pcost entry)%Q;
           decode_tokens := (decode_tokens l + dcost entry)%Q |}).
Proof.
  intros Hg Hb Ho. simpl. rewrite Hg.
  destruct (Z.eqb_spec block_size 0) as [?|_]; [contradiction|].
  unfold prefill_cost, decode_cost in Ho. now rewrite Ho.
Qed.

(** One iteration that commits its entry. *)
Lemma next_batch_loop_commit (entry : Entry) (rest : list Entry) (l : Locals) :
  Qle_bool (prefill_tokens l + decode_tokens l) (inject_Z token_budget) = true ->
  block_size <> 0 ->
  over (prefill_tokens l + pcost entry) (decode_tokens l + dcost entry) = false ->
  loop (entry :: rest) l =
    loop rest
      {| batch_requests := batch_requests l ++ [request entry];
         prefill_tokens := (prefill_tokens l + pcost entry)%Q;
         decode_tokens := (decode_tokens l + dcost entry)%Q |}.
Proof.
  intros Hg Hb Ho. simpl. rewrite Hg.
  destruct (Z.eqb_spec block_size 0) as [?|_]; [contradiction|].
  unfold prefill_cost, decode_cost in Ho. now rewrite Ho.
Qed.

(** The loop raises exactly when its body runs with [block_size = 0]. *)
Lemma next_batch_loop_raise (entries q' : list Entry) (l : Locals) (e : exn) :
  loop entries l = (q', Raise e) -> block_size = 0.
Proof.
  revert l. induction entries as [|entry rest IH]; intros l; simpl.
  - discriminate.
  - destruct (Qle_bool _ _); [|discriminate].
    destruct (Z.eqb_spec block_size 0) as [?|_]; [easy|].
    destruct (over_budget _ _ _ _); [discriminate|]. apply IH.
Qed.

(** How the loop leaves the queue and the locals.  [k] entries were
    committed and [m] entries were charged: [m = k], or [m = k + 1] when
    the loop was left by the rejection of entry number [k]. *)
Lemma next_batch_loop_inv (entries q' : list Entry) (l l' : Locals) :
  loop entries l = (q', Ok l') ->
  exists k m : nat,
    (k <= length entries)%nat /\
    q' = drop k entries /\
    batch_requests l' = batch_requests l ++ map request (take k entries) /\
    (prefill_tokens l' ==
       prefill_tokens l + Qsum (map pcost (take m entries)))%Q /\
    (decode_tokens l' ==
       decode_tokens l + Qsum (map dcost (take m entries)))%Q /\
    (k <> 0%nat ->
       (prefill_tokens l + Qsum (map pcost (take k entries))
          <= inject_Z max_batch_prefill_tokens)%Q /\
       ((prefill_tokens l + Qsum (map pcost (take k entries))) +
        (decode_tokens l + Qsum (map dcost (take k entries)))
          <= inject_Z token_budget)%Q) /\
    ((m = k /\
      (q' = [] \/
       (k = 0%nat /\
        ~ (prefill_tokens l + decode_tokens l <= inject_Z token_budget)%Q)))
     \/
     (m = S k /\ block_size <> 0 /\
      exists entry rest, q' = entry :: rest /\
        over (prefill_tokens l') (decode_tokens l') = true)).
Proof.
  revert l. induction entries as [|entry rest IH]; intros l; simpl.
  - intros [= <- <-]. exists 0%nat, 0%nat. simpl.
    rewrite app_nil_r. repeat split; try lra; try easy. left. auto.
  - destruct (Qle_bool _ _) eqn:Hg.
    2:{ intros [= <- <-]. exists 0%nat, 0%nat. simpl.
        rewrite app_nil_r. repeat split; try lra; try lia; try easy.
        left. split; [easy|]. right. split; [easy|].
        rewrite <- Qle_bool_iff, Hg. discriminate. }
    destruct (Z.eqb_spec block_size 0) as [?|Hb]; [discriminate|].
    fold (pcost entry). fold (dcost entry).
    destruct (over (prefill_tokens l + pcost entry)
                   (decode_tokens l + dcost entry)) eqn:Ho.
    + intros [= <- <-]. exists 0%nat, 1%nat. simpl.
      rewrite app_nil_r. repeat split; try lra; try lia; try easy.
      right. repeat split; try easy. eauto.
    + intros Hl. destruct (IH _ Hl) as (k & m & Hk & Hq & Hr & Hp & Hd & Hfit & Hstop).
      simpl in Hr, Hp, Hd, Hfit, Hstop.
      apply over_budget_false in Ho. destruct Ho as [Ho1 Ho2].
      exists (S k), (S m). simpl.
      split; [lia|]. split; [exact Hq|].
      split; [rewrite Hr, <- app_assoc; reflexivity|].
      split; [rewrite Hp; ring|].
      split; [rewrite Hd; ring|].
      split.
      * intros _. destruct k as [|k].
        -- simpl. split; lra.
        -- destruct (Hfit ltac:(lia)) as [F1 F2]. simpl in F1, F2. simpl.
           split; lra.
      * destruct Hstop as [(-> & [Hnil | (-> & Hng)]) | (-> & Hb' & Hrej)].
        -- left. auto.
        -- exfalso. apply Hng. exact Ho2.
        -- right. auto.
Qed.

End SchedulerFacts.

(** ** [next_batch] as a whole *)

Section NextBatchFacts.

Variables (max_batch_prefill_tokens token_budget block_size : Z)
          (window_size : option Z).

Local Abbreviation loop :=
  (next_batch_loop max_batch_prefill_tokens token_budget block_size window_size).
Local Abbreviation sched :=
  (next_batch max_batch_prefill_tokens token_budget block_size window_size).
Local Abbreviation over :=
  (over_budget max_batch_prefill_tokens token_budget).
Local Abbreviation pcost := (prefill_cost block_size).
Local Abbreviation dcost := (decode_cost block_size window_size).

(** With a block size other than zero the loop does not raise. *)
Lemma next_batch_loop_total (entries : list Entry) (l : Locals) :
  block_size <> 0 ->
  exists q' l', loop entries l = (q', Ok l').
Proof.
  intros Hb. destruct (loop entries l) as [q' [l'|e]] eqn:Hl; [eauto|].
  apply next_batch_loop_raise in Hl. contradiction.
Qed.

(** A prefix that the loop consumes entirely is committed entirely, and
    the loop goes on with what follows it. *)
Lemma next_batch_loop_app (pre q : list Entry) (l lp : Locals) :
  loop pre l = ([], Ok lp) -> loop (pre ++ q) l = loop q lp.
Proof.
  revert l. induction pre as [|entry pre IH]; intros l; simpl.
  - now intros [= <-].
  - destruct (Qle_bool _ _); [|discriminate].
    destruct (block_size =? 0); [discriminate|].
    destruct (over_budget _ _ _ _); [discriminate|]. apply IH.
Qed.

Lemma next_batch_loop_consumed (pre : list Entry) (l lp : Locals) :
  loop pre l = ([], Ok lp) ->
  batch_requests lp = batch_requests l ++ map request pre.
Proof.
  intros Hl. apply next_batch_loop_inv in Hl.
  destruct Hl as (k & m & Hk & Hq & Hr & _).
  assert (k = length pre) as ->.
  { symmetry in Hq. apply drop_nil_inv in Hq. lia. }
  now rewrite firstn_all in Hr.
Qed.

Lemma map_request_nil_inv (k : nat) (entries : list Entry) :
  (k <= length entries)%nat -> map request (take k entries) = [] -> k = 0%nat.
Proof.
  intros Hk Hm. apply (f_equal (@length _)) in Hm.
  rewrite length_map, length_take in Hm. simpl in Hm. lia.
Qed.

(** What a call that returns has done to the queue and to [_ID]. *)
Lemma next_batch_decomposes (entries : list Entry) (_ID : Z) st r :
  sched entries _ID = (st, Ok r) -> decomposes entries _ID (sched entries _ID).
Proof.
  unfold next_batch.
  destruct (loop entries init_locals) as [q' [l'|e]] eqn:Hl; [|discriminate].
  intros _. apply next_batch_loop_inv in Hl.
  destruct Hl as (k & m & Hk & Hq & Hr & _). simpl in Hr.
  destruct (batch_requests l') as [|r0 rs] eqn:Hbr.
  - left. symmetry in Hr. apply map_request_nil_inv in Hr; [|exact Hk].
    subst. reflexivity.
  - right. eexists k, _. split; [|split; [subst q'; reflexivity|]].
    + split; [|exact Hk]. destruct k; [discriminate|lia].
    + cbn [requests size batch_id]. split; [exact Hr|]. split; [|reflexivity].
      rewrite Hr, length_map, length_take. lia.
Qed.

(** With a block size other than zero the call returns, and what it
    returns decomposes the queue. *)
Lemma next_batch_returns_decomposed (entries : list Entry) (_ID : Z) :
  block_size <> 0 ->
  decomposes entries _ID (sched entries _ID).
Proof.
  intros Hb.
  destruct (sched entries _ID) as [st [r|e]] eqn:Hs.
  - rewrite <- Hs. eapply next_batch_decomposes, Hs.
  - exfalso. unfold next_batch in Hs.
    destruct (loop entries init_locals) as [q' [l'|e']] eqn:Hl.
    + destruct (batch_requests l'); discriminate.
    + apply next_batch_loop_raise in Hl. contradiction.
Qed.





End NextBatchFacts.

(** ** The scheduler: costs *)

(** C1 (the code departs from the claim).  The claim is that an admitted
    entry adds [input_length], and its effective [max_new_tokens], rounded
    up to the next multiple of [block_size].  The update is written with
    true division, so it adds [n + block_size - 1] instead: for an entry of
    2 input tokens and 2 new tokens, with [BLOCK_SIZE = 16], the call admits
    the entry and has added 17 and 17, where the rounded costs are 16 and
    16. *)
Theorem next_batch_charge_not_rounded :
  let e := create_entry "ab" 2 16 4 in
  exists l',
    next_batch_loop 100 100 BLOCK_SIZE None [e] init_locals = ([], Ok l') /\
    batch_requests l' = [request e] /\
    (prefill_tokens l' == 17)%Q /\
    (decode_tokens l' == 17)%Q /\
    round_up_to_block BLOCK_SIZE (input_length e) = 16 /\
    round_up_to_block BLOCK_SIZE (entry_max_new_tokens None e) = 16.
Proof.
  intros e. eexists. split; [vm_compute; reflexivity|].
  vm_compute. repeat split.
Qed.

(** C2 (the code departs from the claim).  The claim is that [max_tokens]
    of a returned Batch is the sum of the costs of the committed entries
    only.  The totals are updated before the test of line 270 and are not
    taken back when the entry is put back: with two entries of 1 input
    token and 1 new token (cost 16 + 16 each, rounded or not) and
    [max_batch_prefill_tokens = 16], the Batch holds the first request only
    and its [max_tokens] is 64, not 32. *)
Theorem next_batch_max_tokens_counts_rejected :
  let e1 := create_entry "a" 1 16 2 in
  let e2 := create_entry "b" 1 16 2 in
  exists b,
    next_batch 16 1000 BLOCK_SIZE None [e1; e2] 0 = (([e2], 1), Ok (Some b)) /\
    requests b = [request e1] /\
    (max_tokens b == 64)%Q /\
    (prefill_cost BLOCK_SIZE e1 + decode_cost BLOCK_SIZE None e1 == 32)%Q /\
    round_up_to_block BLOCK_SIZE (input_length e1)
      + round_up_to_block BLOCK_SIZE (entry_max_new_tokens None e1) = 32.
Proof.
  intros e1 e2. eexists. split; [vm_compute; reflexivity|].
  vm_compute. repeat split.
Qed.

(** C6 (the code departs from the claim).  The claim is that a queue whose
    rounded costs fit both limits is admitted whole by one call.  One entry
    of 2 input tokens and 2 new tokens has rounded costs 16 + 16 = 32, which
    fit [token_budget = 32] and [max_batch_prefill_tokens = 16]; the call
    charges 17 for the prefill, rejects the entry and returns none. *)
Theorem next_batch_rounded_fit_not_admitted :
  let e := create_entry "ab" 2 16 4 in
  round_up_to_block BLOCK_SIZE (input_length e) <= 16 /\
  round_up_to_block BLOCK_SIZE (input_length e)
    + round_up_to_block BLOCK_SIZE (entry_max_new_tokens None e) <= 32 /\
  next_batch 16 32 BLOCK_SIZE None [e] 0 = (([e], 0), Ok None).
Proof.
  intros e. vm_compute. repeat split; discriminate.
Qed.

Section SchedulerClaims.

Variables (max_batch_prefill_tokens token_budget block_size : Z)
          (window_size : option Z).

Local Abbreviation loop :=
  (next_batch_loop max_batch_prefill_tokens token_budget block_size window_size).
Local Abbreviation sched :=
  (next_batch max_batch_prefill_tokens token_budget block_size window_size).
Local Abbreviation over :=
  (over_budget max_batch_prefill_tokens token_budget).
Local Abbreviation pcost := (prefill_cost block_size).
Local Abbreviation dcost := (decode_cost block_size window_size).


(** C7.  An entry is rejected when the loop has committed the entries
    [pre] before it, runs its body for the entry, and the test of line 270
    is true on the totals with the entry's costs added.  The call then
    leaves the queue as the rejected entry, unmodified, followed by what
    came after it: the original queue without the committed entries [pre].
    Nothing after the rejected entry is committed: the call returns the
    requests of [pre], or none when [pre] is empty. *)
Theorem next_batch_requeues_rejected
    (pre : list Entry) (entry : Entry) (rest : list Entry)
    (l_pre : Locals) (_ID0 : Z) :
  next_batch_loop max_batch_prefill_tokens token_budget block_size window_size
                  pre init_locals = ([], Ok l_pre) ->
  Qle_bool (prefill_tokens l_pre + decode_tokens l_pre)
           (inject_Z token_budget) = true ->
  block_size <> 0 ->
  over_budget max_batch_prefill_tokens token_budget
              (prefill_tokens l_pre + prefill_cost block_size entry)
              (decode_tokens l_pre + decode_cost block_size window_size entry)
    = true ->
  exists (_ID' : Z) (r : option Batch),
    next_batch max_batch_prefill_tokens token_budget block_size window_size
               (pre ++ entry :: rest) _ID0
      = ((entry :: rest, _ID'), Ok r) /\
    match r with
    | None => pre = [] /\ _ID' = _ID0
    | Some b => requests b = map request pre /\ pre <> [] /\ _ID' = _ID0 + 1
    end.
Proof.
  intros Hpre Hg Hb Ho.
  pose proof (next_batch_loop_consumed _ _ _ _ _ _ _ Hpre) as Hreq.
  simpl in Hreq.
  unfold next_batch.
  rewrite (next_batch_loop_app _ _ _ _ _ _ _ _ Hpre).
  rewrite next_batch_loop_reject by assumption.
  cbn [batch_requests]. rewrite Hreq.
  destruct pre as [|e0 pre']; simpl.
  - exists _ID0, None. auto.
  - eexists _, (Some _). split; [reflexivity|]. cbn [requests]. auto.
Qed.

(** C8.  One iteration of the loop, for an entry of input length [L] and
    requested [max_new_tokens] [M]: with [window_size] set to [W] the
    amount added to [decode_tokens] is computed from [min (W - L) M], and
    so from [W - L] when [M > W - L]; with [window_size] unset it is
    computed from [M].  This holds whether the iteration commits the entry
    (the loop goes on with the new locals) or rejects it. *)
Theorem next_batch_decode_from_window
    (entry : Entry) (rest : list Entry) (l : Locals) :
  let L := input_length entry in
  let M := max_new_tokens (stopping_parameters (request entry)) in
  let source :=
    match window_size with
    | Some W => Z.min (W - L) M
    | None => M
    end in
  Qle_bool (prefill_tokens l + decode_tokens l) (inject_Z token_budget) = true ->
  block_size <> 0 ->
  exists l1 : Locals,
    decode_tokens l1 = (decode_tokens l + block_charge block_size source)%Q /\
    (forall W, window_size = Some W -> M > W - L ->
       decode_tokens l1 = (decode_tokens l + block_charge block_size (W - L))%Q) /\
    (window_size = None ->
       decode_tokens l1 = (decode_tokens l + block_charge block_size M)%Q) /\
    ((next_batch_loop max_batch_prefill_tokens token_budget block_size
                      window_size (entry :: rest) l
        = (entry :: rest, Ok l1) /\
      batch_requests l1 = batch_requests l)
     \/
     (next_batch_loop max_batch_prefill_tokens token_budget block_size
                      window_size (entry :: rest) l
        = next_batch_loop max_batch_prefill_tokens token_budget block_size
                          window_size rest l1 /\
      batch_requests l1 = batch_requests l ++ [request entry])).
Proof.
  intros L M source Hg Hb.
  assert (Hsrc : source = entry_max_new_tokens window_size entry).
  { unfold source, entry_max_new_tokens. now destruct window_size. }
  destruct (over (prefill_tokens l + pcost entry)
                 (decode_tokens l + dcost entry)) eqn:Ho.
  - eexists. split; [|split; [|split]].
    4:{ left. split; [apply next_batch_loop_reject; assumption|reflexivity]. }
    + cbn [decode_tokens]. unfold decode_cost. now rewrite Hsrc.
    + intros W HW HM. cbn [decode_tokens]. unfold decode_cost.
      rewrite HW. cbn [entry_max_new_tokens]. fold L M.
      rewrite Z.min_l by lia. reflexivity.
    + intros HW. cbn [decode_tokens]. unfold decode_cost.
      rewrite HW. reflexivity.
  - eexists. split; [|split; [|split]].
    4:{ right. split; [apply next_batch_loop_commit; assumption|reflexivity]. }
    + cbn [decode_tokens]. unfold decode_cost. now rewrite Hsrc.
    + intros W HW HM. cbn [decode_tokens]. unfold decode_cost.
      rewrite HW. cbn [entry_max_new_tokens]. fold L M.
      rewrite Z.min_l by lia. reflexivity.
    + intros HW. cbn [decode_tokens]. unfold decode_cost.
      rewrite HW. reflexivity.
Qed.


End SchedulerClaims.

(** *** The scheduler claims on concrete queues *)


Lemma next_batch_requeues_rejected_witness :
  let e1 := create_entry "a" 1 16 2 in
  let e2 := create_entry "b" 1 16 2 in
  let e3 := create_entry "c" 1 16 2 in
  exists (_ID' : Z) (r : option Batch),
    next_batch 16 1000 BLOCK_SIZE None ([e1] ++ e2 :: [e3]) 0
      = ((e2 :: [e3], _ID'), Ok r) /\
    match r with
    | None => [e1] = [] /\ _ID' = 0
    | Some b => requests b = map request [e1] /\ [e1] <> [] /\ _ID' = 0 + 1
    end.
Proof.
  intros e1 e2 e3.
  eapply (next_batch_requeues_rejected 16 1000 BLOCK_SIZE None [e1] e2 [e3]).
  - vm_compute. reflexivity.
  - vm_compute. reflexivity.
  - discriminate.
  - vm_compute. reflexivity.
Defined.

Lemma next_batch_decode_from_window_witness :
  let e := create_entry "x" 20 32 120 in
  exists l1 : Locals,
    decode_tokens l1
      = (decode_tokens init_locals
         + block_charge BLOCK_SIZE (Z.min (50 - 20) 100))%Q /\
    (forall W, Some 50 = Some W -> 100 > W - 20 ->
       decode_tokens l1
         = (decode_tokens init_locals + block_charge BLOCK_SIZE (W - 20))%Q) /\
    (Some 50 = None ->
       decode_tokens l1
         = (decode_tokens init_locals + block_charge BLOCK_SIZE 100)%Q) /\
    ((next_batch_loop 64 1000 BLOCK_SIZE (Some 50) [e] init_locals
        = ([e], Ok l1) /\
      batch_requests l1 = batch_requests init_locals)
     \/
     (next_batch_loop 64 1000 BLOCK_SIZE (Some 50) [e] init_locals
        = next_batch_loop 64 1000 BLOCK_SIZE (Some 50) [] l1 /\
      batch_requests l1 = batch_requests init_locals ++ [request e])).
Proof.
  intros e.
  apply (next_batch_decode_from_window 64 1000 BLOCK_SIZE (Some 50) e []
           init_locals); [reflexivity | discriminate].
Defined.



(** ** [warmup] *)

Section WarmupFacts.

Variables (max_input_length max_batch_prefill_tokens max_total_tokens : Z).

Local Abbreviation wloop :=
  (warmup_loop max_input_length max_batch_prefill_tokens max_total_tokens).
Local Abbreviation wrequest :=
  (warmup_request max_input_length max_total_tokens).
Local Abbreviation wappended :=
  (warmup_appended max_input_length max_batch_prefill_tokens max_total_tokens).

Lemma warmup_appended_length (k : nat) (n_tokens : Z) :
  length (wappended k n_tokens) = k.
Proof.
  revert n_tokens. induction k as [|k IH]; intros n_tokens; simpl;
    [reflexivity | now rewrite IH].
Qed.

Lemma warmup_appended_lookup (k i : nat) (n_tokens : Z) :
  (i < k)%nat ->
  wappended k n_tokens !! i =
    Some (wrequest (Z.min max_input_length
                      (max_batch_prefill_tokens
                       - (n_tokens + Z.of_nat i * max_input_length)))).
Proof.
  revert i n_tokens. induction k as [|k IH]; intros i n_tokens Hi; [lia|].
  destruct i as [|i]; simpl.
  - do 3 f_equal. lia.
  - rewrite IH by lia. do 4 f_equal. lia.
Qed.

(** The loop runs exactly [k] times when [k] steps of [max_input_length]
    are the first to reach [max_batch_prefill_tokens]. *)
Lemma warmup_loop_runs (k fuel : nat) (n_tokens : Z) (requests0 : list Request) :
  1 <= max_input_length ->
  (k <= fuel)%nat ->
  (k <> 0%nat ->
   n_tokens + (Z.of_nat k - 1) * max_input_length < max_batch_prefill_tokens) ->
  max_batch_prefill_tokens <= n_tokens + Z.of_nat k * max_input_length ->
  wloop fuel n_tokens requests0 = Some (requests0 ++ wappended k n_tokens).
Proof.
  intros Hmil. revert fuel n_tokens requests0.
  induction k as [|k IH]; intros fuel n_tokens requests0 Hfuel Hlt Hge.
  - assert (Hdone : (n_tokens <? max_batch_prefill_tokens) = false)
      by (apply Z.ltb_ge; lia).
    destruct fuel; simpl; rewrite Hdone, app_nil_r; reflexivity.
  - destruct fuel as [|fuel]; [lia|].
    assert (Hrun : (n_tokens <? max_batch_prefill_tokens) = true)
      by (apply Z.ltb_lt; nia).
    simpl. rewrite Hrun. rewrite IH; [|lia|intros; nia|nia].
    now rewrite <- app_assoc.
Qed.

(** With [max_input_length <= 0] the loop makes no progress. *)
Lemma warmup_loop_no_progress (fuel : nat) (n_tokens : Z) (requests0 : list Request) :
  max_input_length <= 0 ->
  n_tokens < max_batch_prefill_tokens ->
  wloop fuel n_tokens requests0 = None.
Proof.
  intros Hmil. revert n_tokens requests0.
  induction fuel as [|fuel IH]; intros n_tokens requests0 Hlt; simpl;
    (assert (Hrun : (n_tokens <? max_batch_prefill_tokens) = true)
       by (apply Z.ltb_lt; lia)); rewrite Hrun; [reflexivity|].
  apply IH. lia.
Qed.

(** C9.  For [max_input_length >= 1] and [max_batch_prefill_tokens >= 1],
    and fuel for that many iterations, [warmup] builds a batch of exactly
    [ceil(max_batch_prefill_tokens / max_input_length)] requests; request
    number [i] has [max_new_tokens = max_total_tokens - truncate_length]
    with [truncate_length = min(max_input_length, max_batch_prefill_tokens
    - i * max_input_length)], where [i * max_input_length] is the count of
    tokens so far.  When [max_input_length] divides
    [max_batch_prefill_tokens], as 16 divides 64, every request has
    [max_new_tokens = max_total_tokens - max_input_length]. *)
Theorem warmup_synthesizes_requests (fuel : nat) :
  1 <= max_input_length ->
  1 <= max_batch_prefill_tokens ->
  let n := Qceiling (inject_Z max_batch_prefill_tokens / inject_Z max_input_length) in
  (Z.to_nat n <= fuel)%nat ->
  exists msg : WarmupRequest,
    warmup_message max_input_length max_batch_prefill_tokens max_total_tokens fuel
      = Some msg /\
    Z.of_nat (length (requests (warmup_batch msg))) = n /\
    size (warmup_batch msg) = n /\
    (forall (i : nat) (r : Request),
       requests (warmup_batch msg) !! i = Some r ->
       max_new_tokens (stopping_parameters r) =
         max_total_tokens
         - Z.min max_input_length
                 (max_batch_prefill_tokens - Z.of_nat i * max_input_length)) /\
    (max_batch_prefill_tokens mod max_input_length = 0 ->
     forall (i : nat) (r : Request),
       requests (warmup_batch msg) !! i = Some r ->
       max_new_tokens (stopping_parameters r) =
         max_total_tokens - max_input_length).
Proof.
  intros Hmil Hmbpt n Hfuel.
  assert (Hn : n = (max_batch_prefill_tokens + max_input_length - 1)
                     / max_input_length).
  { unfold n. apply Qceiling_div_pos. lia. }
  pose proof (Z.div_mod (max_batch_prefill_tokens + max_input_length - 1)
                max_input_length ltac:(lia)) as Hdm.
  pose proof (Z.mod_pos_bound (max_batch_prefill_tokens + max_input_length - 1)
                max_input_length ltac:(lia)) as Hm.
  rewrite <- Hn in Hdm.
  assert (Hn1 : 1 <= n) by nia.
  assert (Hloop : wloop fuel 0 [] = Some (wappended (Z.to_nat n) 0)).
  { rewrite (warmup_loop_runs (Z.to_nat n)); try assumption.
    - reflexivity.
    - intros _. rewrite Z2Nat.id by lia. nia.
    - rewrite Z2Nat.id by lia. nia. }
  unfold warmup_message. rewrite Hloop. eexists. split; [reflexivity|].
  cbn [warmup_batch requests size]. rewrite warmup_appended_length.
  rewrite Z2Nat.id by lia.
  assert (Hidx : forall (i : nat) (r : Request),
             wappended (Z.to_nat n) 0 !! i = Some r ->
             (i < Z.to_nat n)%nat /\
             max_new_tokens (stopping_parameters r) =
               max_total_tokens
               - Z.min max_input_length
                       (max_batch_prefill_tokens - Z.of_nat i * max_input_length)).
  { intros i r Hi.
    assert (Hlt : (i < Z.to_nat n)%nat).
    { apply lookup_lt_Some in Hi. now rewrite warmup_appended_length in Hi. }
    rewrite warmup_appended_lookup in Hi by exact Hlt.
    injection Hi as <-. split; [exact Hlt|reflexivity]. }
  repeat split.
  - intros i r Hi. now apply Hidx.
  - intros Hdiv i r Hi. destruct (Hidx i r Hi) as [Hlt ->].
    pose proof (Z.div_mod max_batch_prefill_tokens max_input_length ltac:(lia))
      as Hdm'.
    rewrite Hdiv in Hdm'.
    set (q := max_batch_prefill_tokens / max_input_length) in *.
    assert (Hnq : n <= q) by nia.
    assert (Hi1 : Z.of_nat i + 1 <= q) by lia.
    rewrite Z.min_l; [reflexivity|]. nia.
Qed.

End WarmupFacts.

Lemma warmup_synthesizes_requests_witness :
  exists msg : WarmupRequest,
    warmup_message 16 64 128 4 = Some msg /\
    Z.of_nat (length (requests (warmup_batch msg))) = 4 /\
    size (warmup_batch msg) = 4 /\
    (forall (i : nat) (r : Request),
       requests (warmup_batch msg) !! i = Some r ->
       max_new_tokens (stopping_parameters r) =
         128 - Z.min 16 (64 - Z.of_nat i * 16)) /\
    (64 mod 16 = 0 ->
     forall (i : nat) (r : Request),
       requests (warmup_batch msg) !! i = Some r ->
       max_new_tokens (stopping_parameters r) = 128 - 16).
Proof.
  apply (warmup_synthesizes_requests 16 64 128 4); [lia | lia | vm_compute; lia].
Defined.

(** ** The continuous-batching loop *)

Section RunFacts.

Context {Client CachedBatch : Type} `{!LoraxServiceStub Client CachedBatch}.

Variables (max_batch_prefill_tokens token_budget : Z) (window_size : option Z).

Local Abbreviation State := (RunState Client CachedBatch).
Local Abbreviation sched :=
  (next_batch max_batch_prefill_tokens token_budget BLOCK_SIZE window_size).
Local Abbreviation call :=
  (call_next_batch max_batch_prefill_tokens token_budget window_size).
Local Abbreviation admission :=
  (admission_loop max_batch_prefill_tokens token_budget window_size).
Local Abbreviation outer :=
  (run_loop max_batch_prefill_tokens token_budget window_size).

Lemma BLOCK_SIZE_nonzero : BLOCK_SIZE <> 0.
Proof. discriminate. Qed.

(** The scheduler call of the loop does not raise; it leaves the state
    alone when it returns none and shortens the queue when it returns a
    Batch. *)
Lemma call_next_batch_cases (st : State) :
  (call st = Ok ({| entries := entries st; _ID := _ID st; client := client st;
                    outputs := outputs st; batches := batches st;
                    pbar := pbar st |}, None) /\
   sched (entries st) (_ID st) = ((entries st, _ID st), Ok None))
  \/
  (exists (k : nat) (b : Batch),
     (1 <= k <= length (entries st))%nat /\
     call st = Ok ({| entries := drop k (entries st); _ID := _ID st + 1;
                      client := client st; outputs := outputs st;
                      batches := batches st; pbar := pbar st |}, Some b)).
Proof.
  unfold call_next_batch.
  destruct (next_batch_returns_decomposed max_batch_prefill_tokens token_budget
              BLOCK_SIZE window_size (entries st) (_ID st) BLOCK_SIZE_nonzero)
    as [H | (k & b & Hk & H & _)]; rewrite H.
  - left. split; reflexivity.
  - right. exists k, b. split; [exact Hk|reflexivity].
Qed.

(** The inner loop ends; it takes entries from the front of the queue and
    appends pairs to [batches]. *)
Lemma admission_loop_ends (fuel : nat) (generations : list Generation) (st : State) :
  (length (entries st) < fuel)%nat ->
  admission fuel generations st <> OutOfFuel /\
  forall st', admission fuel generations st = Done st' ->
    (exists k : nat, entries st' = drop k (entries st)) /\
    pbar st' = pbar st /\
    exists more, batches st' = batches st ++ map Tuple more.
Proof.
  revert st. induction fuel as [|fuel IH]; intros st Hlen; [lia|].
  cbn [admission_loop].
  destruct (call_next_batch_cases st) as [[Hc _] | (k & b & Hk & Hc)];
    rewrite Hc; cbn [lift mbind outcome_bind].
  - split; [discriminate|]. intros st' [= <-]. cbn.
    split; [exists 0%nat; reflexivity|]. split; [reflexivity|].
    exists []. now rewrite app_nil_r.
  - unfold prefill. cbn [client].
    destruct (Prefill (client st) b) as [[client' new_cached_batch]|e];
      cbn [lift mbind outcome_bind]; [|split; [discriminate|discriminate]].
    match goal with |- context [admission fuel generations ?s] =>
      destruct (IH s) as [Hfuel Hdone] end.
    { cbn [entries]. rewrite length_drop. lia. }
    split; [exact Hfuel|]. intros st' Hst'.
    destruct (Hdone st' Hst') as ((k' & Hq) & Hp & (more & Hb)).
    cbn [entries pbar batches] in Hq, Hp, Hb.
    split; [|split].
    + exists (k + k')%nat. now rewrite Hq, drop_drop.
    + exact Hp.
    + exists (new_cached_batch :: more). rewrite Hb, <- app_assoc. reflexivity.
Qed.

(** C4, as amended.  Given fuel above the length of the queue the loop
    ends (or an engine call raises).  It ends at a state on which the
    scheduler call at the head of the outer loop returns none: this is the
    only exit.  The queue it leaves is a suffix of the original queue, not
    necessarily empty.  The list [batches] is not consulted and is never
    shortened: either no batch was admitted and the state is left as it
    was, or the progress count has grown and [batches] is not empty. *)
Theorem run_loop_exit (fuel : nat) (st : State) :
  (length (entries st) < fuel)%nat ->
  run_loop max_batch_prefill_tokens token_budget window_size fuel st
    <> OutOfFuel /\
  forall st',
    run_loop max_batch_prefill_tokens token_budget window_size fuel st
      = Done st' ->
    next_batch max_batch_prefill_tokens token_budget BLOCK_SIZE window_size
               (entries st') (_ID st')
      = ((entries st', _ID st'), Ok None) /\
    (exists k : nat, entries st' = drop k (entries st)) /\
    ((entries st' = entries st /\ batches st' = batches st /\
      pbar st' = pbar st)
     \/
     (pbar st < pbar st' /\ batches st' <> [])).
Proof.
  revert st. induction fuel as [|fuel IH]; intros st Hlen; [lia|].
  cbn [run_loop].
  destruct (call_next_batch_cases st) as [[Hc Hs] | (k & b & Hk & Hc)];
    rewrite Hc; cbn [lift mbind outcome_bind].
  - split; [discriminate|]. intros st' [= <-]. cbn.
    split; [exact Hs|]. split; [exists 0%nat; reflexivity|]. left. auto.
  - unfold prefill, decode. cbn [client entries _ID outputs pbar].
    destruct (Prefill (client st) b) as [[client1 [cached_batch generations]]|e];
      cbn [lift mbind outcome_bind]; [|split; discriminate].
    match goal with |- context [admission fuel generations ?s] =>
      destruct (admission_loop_ends fuel generations s) as [Hfuel Hdone];
      [cbn [entries]; rewrite length_drop; lia|];
      destruct (admission fuel generations s) as [st2| |] eqn:Hadm
    end; cbn [mbind outcome_bind]; [|split; discriminate|contradiction].
    destruct (Hdone st2 eq_refl) as ((k' & Hq) & Hp & (more & Hb)).
    cbn [entries pbar batches] in Hq, Hp, Hb.
    destruct (Decode (client st2) (batches st2))
      as [[client3 [cached_batch' generations']]|e];
      cbn [lift mbind outcome_bind]; [|split; discriminate].
    match goal with |- context [outer fuel ?s] =>
      destruct (IH s) as [Hfuel' Hdone'] end.
    { cbn [entries]. rewrite Hq, !length_drop. lia. }
    split; [exact Hfuel'|]. intros st' Hst'.
    destruct (Hdone' st' Hst') as (Hnone & (k3 & Hq3) & Hact).
    cbn [entries pbar batches] in Hq3, Hact.
    split; [exact Hnone|]. split.
    + exists (k + k' + k3)%nat. rewrite Hq3, Hq, !drop_drop. f_equal. lia.
    + right. destruct Hact as [(_ & Hb3 & Hp3) | (Hp3 & Hb3)].
      * split; [lia|]. rewrite Hb3, Hb. discriminate.
      * split; [lia|exact Hb3].
Qed.

End RunFacts.

(** *** The loop on the echo engine *)

(** C3 (the code departs from the claim).  The claim is that each further
    Prefill of the admission phase has its handle, and only the handle,
    appended to the active list and its own generations merged into the
    outputs.  Line 93 binds the whole pair returned by [prefill] to
    [new_cached_batch], line 94 appends that pair, and line 95 merges
    [generations], still the list of the first Prefill.  Two entries whose
    prefill costs do not fit one batch give two batches, 0 and 1: the list
    handed to Decode is the handle 0 followed by the pair for batch 1, the
    fragment of batch 0 is recorded twice and that of batch 1 never. *)
Theorem run_admission_appends_pair :
  let e1 := create_entry "a" 1 16 2 in
  let e2 := create_entry "b" 1 16 2 in
  let later := {| request_id := 1; generated_text := {| text := "later" |} |} in
  exists st',
    run_loop 16 1000 None 3
      (initial_state (Client := list (list (ActiveItem Z))) [e1; e2] [])
      = Done st' /\
    batches st' = [Handle 0; Tuple (1, [later])] /\
    client st' = [[Handle 0; Tuple (1, [later])]] /\
    outputs st' !! 0 = Some ["first"%string; "first"%string] /\
    outputs st' !! 1 = None.
Proof.
  intros e1 e2 later. eexists. split; [vm_compute; reflexivity|].
  vm_compute. repeat split.
Qed.

(** C4, as stated, fails: the loop is left with entries in the queue and
    with a list [batches] that is not empty.  The second entry has 40 input
    tokens and never fits [max_batch_prefill_tokens = 32]; the first is
    admitted and decoded once; then the scheduler returns none and the loop
    ends. *)
Lemma run_loop_exits_with_work_left :
  let e1 := create_entry "a" 1 16 2 in
  let e2 := create_entry "long" 40 16 64 in
  let e3 := create_entry "c" 1 16 2 in
  exists st',
    run_loop 32 1000 None 4
      (initial_state (Client := list (list (ActiveItem Z))) [e1; e2; e3] [])
      = Done st' /\
    entries st' = [e2; e3] /\
    batches st' = [Handle 0] /\
    pbar st' = 1 /\
    ~ (entries st' = [] /\ batches st' = []).
Proof.
  intros e1 e2 e3. eexists. split; [vm_compute; reflexivity|].
  vm_compute. repeat split. intros [H _]. discriminate.
Qed.

Lemma run_loop_exit_witness :
  let e1 := create_entry "a" 1 16 2 in
  let e2 := create_entry "long" 40 16 64 in
  let st := initial_state (Client := list (list (ActiveItem Z)))
              (CachedBatch := Z) [e1; e2] [] in
  run_loop 32 1000 None 3 st <> OutOfFuel /\
  forall st', run_loop 32 1000 None 3 st = Done st' ->
    next_batch 32 1000 BLOCK_SIZE None (entries st') (_ID st')
      = ((entries st', _ID st'), Ok None) /\
    (exists k : nat, entries st' = drop k (entries st)) /\
    ((entries st' = entries st /\ batches st' = batches st /\
      pbar st' = pbar st)
     \/
     (pbar st < pbar st' /\ batches st' <> [])).
Proof.
  intros e1 e2 st.
  apply (run_loop_exit 32 1000 None 3 st). simpl. lia.
Defined.

(** ** More on [next_batch]: exceptions, budgets and [max_tokens] *)

Section SchedulerMore.

Variables (max_batch_prefill_tokens token_budget block_size : Z)
          (window_size : option Z).

Local Abbreviation loop :=
  (next_batch_loop max_batch_prefill_tokens token_budget block_size window_size).
Local Abbreviation sched :=
  (next_batch max_batch_prefill_tokens token_budget block_size window_size).
Local Abbreviation over :=
  (over_budget max_batch_prefill_tokens token_budget).
Local Abbreviation pcost := (prefill_cost block_size).
Local Abbreviation dcost := (decode_cost block_size window_size).
Local Abbreviation pcharge :=
  (fun e : Entry => input_length e + block_size - 1).
Local Abbreviation dcharge :=
  (fun e : Entry => entry_max_new_tokens window_size e + block_size - 1).











(** X5.  Two calls in a row that both return a Batch: the ids of the
    Batches are consecutive, and their requests, one list after the other,
    are those of a prefix of the queue the first call was given, in
    order, the second call leaving the rest of that queue. *)
Theorem next_batch_consecutive
    (entries0 q1 q2 : list Entry) (_ID0 _ID1 _ID2 : Z) (b1 b2 : Batch) :
  next_batch max_batch_prefill_tokens token_budget block_size window_size
             entries0 _ID0 = ((q1, _ID1), Ok (Some b1)) ->
  next_batch max_batch_prefill_tokens token_budget block_size window_size
             q1 _ID1 = ((q2, _ID2), Ok (Some b2)) ->
  batch_id b1 = _ID0 /\ batch_id b2 = _ID0 + 1 /\ _ID2 = _ID0 + 2 /\
  exists n : nat,
    (2 <= n <= length entries0)%nat /\
    requests b1 ++ requests b2 = map request (take n entries0) /\
    q2 = drop n entries0.
Proof.
  intros H1 H2.
  pose proof (next_batch_decomposes _ _ _ _ _ _ _ _ H1) as D1.
  rewrite H1 in D1. destruct D1 as [D1 | (k1 & b1' & Hk1 & E1 & Hr1 & _ & Hi1)];
    [discriminate|].
  injection E1 as -> -> <-.
  pose proof (next_batch_decomposes _ _ _ _ _ _ _ _ H2) as D2.
  rewrite H2 in D2. destruct D2 as [D2 | (k2 & b2' & Hk2 & E2 & Hr2 & _ & Hi2)];
    [discriminate|].
  injection E2 as -> -> <-.
  rewrite length_drop in Hk2.
  repeat split; [exact Hi1|exact Hi2|lia|].
  exists (k1 + k2)%nat. split; [lia|]. split.
  - rewrite Hr1, Hr2, <- map_app, take_take_drop. reflexivity.
  - apply drop_drop.
Qed.







End SchedulerMore.

(** ** [add_outputs] *)

Lemma add_outputs_cons (g : Generation) (gens : list Generation)
    (m : gmap Z (list string)) :
  add_outputs (g :: gens) m =
  add_outputs gens
    (<[request_id g := default [] (m !! request_id g)
                       ++ [text (generated_text g)]]> m).
Proof. reflexivity. Qed.

Lemma add_outputs_lookup_filter (gens : list Generation)
    (m : gmap Z (list string)) (k : Z) :
  add_outputs gens m !! k =
    match filter (fun g => request_id g = k) gens with
    | [] => m !! k
    | g :: new =>
        Some (default [] (m !! k)
              ++ map (fun g' => text (generated_text g')) (g :: new))
    end.
Proof.
  revert m. induction gens as [|g gens IH]; intros m; [reflexivity|].
  rewrite add_outputs_cons, IH.
  destruct (decide (request_id g = k)) as [Heq|Hne].
  - rewrite filter_cons_True by exact Heq. rewrite Heq, lookup_insert_eq.
    cbn [default]. unfold Datatypes.id.
    destruct (filter _ gens) as [|g0 new]; cbn [map].
    + reflexivity.
    + rewrite <- app_assoc. reflexivity.
  - rewrite filter_cons_False by exact Hne.
    rewrite lookup_insert_ne by exact Hne. reflexivity.
Qed.

(** X10.  The keys of [outputs] after [add_outputs] are the keys before
    together with the request ids of the generations: no key is removed,
    and none is added that no generation names. *)
Theorem add_outputs_dom (gens : list Generation) (m : gmap Z (list string)) :
  dom (add_outputs gens m) = dom m ∪ list_to_set (request_id <$> gens).
Proof.
  revert m. induction gens as [|g gens IH]; intros m.
  - cbn. now rewrite (right_id_L ∅ (∪)).
  - rewrite add_outputs_cons, IH, dom_insert_L. cbn.
    rewrite (comm_L (∪) {[request_id g]} (dom m)).
    now rewrite (assoc_L (∪)).
Qed.

(** X9.  After [add_outputs], the list under a request id is the list
    that was there (empty if the id was missing) followed by the texts of
    the generations with that id, in the order of the generations; an id
    that no generation has keeps what it had, and stays missing if it
    was. *)
Theorem add_outputs_lookup (gens : list Generation)
    (m : gmap Z (list string)) (k : Z) :
  add_outputs gens m !! k =
    match filter (fun g => request_id g = k) gens with
    | [] => m !! k
    | g :: new =>
        Some (default [] (m !! k)
              ++ map (fun g' => text (generated_text g')) (g :: new))
    end.
Proof. apply add_outputs_lookup_filter. Qed.

Lemma outputs_extend_refl (m : gmap Z (list string)) : outputs_extend m m.
Proof. intros k l H. exists []. now rewrite app_nil_r. Qed.

Lemma outputs_extend_trans (m1 m2 m3 : gmap Z (list string)) :
  outputs_extend m1 m2 -> outputs_extend m2 m3 -> outputs_extend m1 m3.
Proof.
  intros H12 H23 k l H. destruct (H12 k l H) as [l' H'].
  destruct (H23 k _ H') as [l'' H'']. exists (l' ++ l'').
  now rewrite app_assoc.
Qed.

Lemma add_outputs_extend (gens : list Generation) (m : gmap Z (list string)) :
  outputs_extend m (add_outputs gens m).
Proof.
  intros k l H. rewrite add_outputs_lookup_filter, H. cbn [default].
  destruct (filter _ gens); eauto. exists []. now rewrite app_nil_r.
Qed.

(** ** More on the continuous-batching loop *)

Section RunMore.

Context {Client CachedBatch : Type} `{!LoraxServiceStub Client CachedBatch}.

Variables (max_batch_prefill_tokens token_budget : Z) (window_size : option Z).

Local Abbreviation State := (RunState Client CachedBatch).
Local Abbreviation sched :=
  (next_batch max_batch_prefill_tokens token_budget BLOCK_SIZE window_size).
Local Abbreviation call :=
  (call_next_batch max_batch_prefill_tokens token_budget window_size).
Local Abbreviation admission :=
  (admission_loop max_batch_prefill_tokens token_budget window_size).
Local Abbreviation outer :=
  (run_loop max_batch_prefill_tokens token_budget window_size).

(** What a finished run of the inner loop has done. *)
Lemma admission_loop_progress (fuel : nat) (generations : list Generation)
    (st st' : State) :
  admission fuel generations st = Done st' ->
  outputs_extend (outputs st) (outputs st') /\
  pbar st' = pbar st /\
  exists k : nat,
    entries st' = drop k (entries st) /\
    (k <= length (entries st))%nat /\
    0 <= _ID st' - _ID st <= Z.of_nat k.
Proof.
  revert st. induction fuel as [|fuel IH]; intros st; [discriminate|].
  cbn [admission_loop].
  destruct (call_next_batch_cases max_batch_prefill_tokens token_budget
              window_size st) as [[Hc _] | (k & b & Hk & Hc)];
    rewrite Hc; cbn [lift mbind outcome_bind].
  - intros [= <-]. cbn. split; [apply outputs_extend_refl|].
    split; [reflexivity|]. exists 0%nat. repeat split; lia.
  - unfold prefill. cbn [client].
    destruct (Prefill (client st) b) as [[client' new_cached_batch]|e];
      cbn [lift mbind outcome_bind]; [|discriminate].
    intros Hst'. apply IH in Hst'.
    destruct Hst' as (Ho & Hp & k' & Hq & Hk' & Hid).
    cbn [entries outputs pbar _ID] in Ho, Hp, Hq, Hk', Hid.
    rewrite length_drop in Hk'.
    split; [|split; [exact Hp|]].
    + eapply outputs_extend_trans; [apply add_outputs_extend|exact Ho].
    + exists (k + k')%nat. rewrite Hq, drop_drop.
      repeat split; lia.
Qed.

(** What a finished run of the outer loop has done, and where it has
    stopped. *)
Lemma run_loop_progress (fuel : nat) (st st' : State) :
  outer fuel st = Done st' ->
  sched (entries st') (_ID st') = ((entries st', _ID st'), Ok None) /\
  outputs_extend (outputs st) (outputs st') /\
  exists k : nat,
    entries st' = drop k (entries st) /\
    (k <= length (entries st))%nat /\
    0 <= pbar st' - pbar st /\
    pbar st' - pbar st <= _ID st' - _ID st /\
    _ID st' - _ID st <= Z.of_nat k.
Proof.
  revert st. induction fuel as [|fuel IH]; intros st; [discriminate|].
  cbn [run_loop].
  destruct (call_next_batch_cases max_batch_prefill_tokens token_budget
              window_size st) as [[Hc Hs] | (k & b & Hk & Hc)];
    rewrite Hc; cbn [lift mbind outcome_bind].
  - intros [= <-]. cbn. split; [exact Hs|].
    split; [apply outputs_extend_refl|]. exists 0%nat. repeat split; lia.
  - unfold prefill, decode. cbn [client entries _ID outputs pbar].
    destruct (Prefill (client st) b) as [[client1 [cached_batch generations]]|e];
      cbn [lift mbind outcome_bind]; [|discriminate].
    match goal with |- context [admission fuel generations ?s] =>
      destruct (admission fuel generations s) as [st2| |] eqn:Hadm
    end; cbn [mbind outcome_bind]; [|discriminate|discriminate].
    apply admission_loop_progress in Hadm.
    destruct Hadm as (Ho2 & Hp2 & k2 & Hq2 & Hk2 & Hid2).
    cbn [entries outputs pbar _ID] in Ho2, Hp2, Hq2, Hk2, Hid2.
    rewrite length_drop in Hk2.
    destruct (Decode (client st2) (batches st2))
      as [[client3 [cached_batch' generations']]|e];
      cbn [lift mbind outcome_bind]; [|discriminate].
    intros Hst'. apply IH in Hst'.
    destruct Hst' as (Hnone & Ho3 & k3 & Hq3 & Hk3 & Hp3 & Hpi3 & Hid3).
    cbn [entries outputs pbar _ID] in Ho3, Hq3, Hk3, Hp3, Hpi3, Hid3.
    rewrite Hq2, !length_drop in Hk3.
    split; [exact Hnone|]. split.
    + eapply outputs_extend_trans; [apply add_outputs_extend|].
      eapply outputs_extend_trans; [exact Ho2|].
      eapply outputs_extend_trans; [apply add_outputs_extend|exact Ho3].
    + exists (k + k2 + k3)%nat. rewrite Hq3, Hq2, !drop_drop.
      split; [f_equal; lia|]. repeat split; lia.
Qed.

(** X11.  The outputs only grow during the loop: every request id
    recorded before is recorded after, and its list of fragments is the
    earlier list with fragments added at the end. *)
Theorem run_loop_outputs_grow (fuel : nat) (st st' : State) :
  run_loop max_batch_prefill_tokens token_budget window_size fuel st
    = Done st' ->
  forall (k : Z) (l : list string),
    outputs st !! k = Some l ->
    exists l', outputs st' !! k = Some (l ++ l').
Proof.
  intros H. apply run_loop_progress in H. destruct H as (_ & Ho & _).
  exact Ho.
Qed.

(** X12.  The loop takes its entries from the front of the queue and
    counts as follows: the progress bar is updated once per round of the
    outer loop, so by no more than the number of Batches made (the growth
    of [_ID]), which is no more than the number of entries taken from the
    queue. *)
Theorem run_loop_accounting (fuel : nat) (st st' : State) :
  run_loop max_batch_prefill_tokens token_budget window_size fuel st
    = Done st' ->
  exists k : nat,
    entries st' = drop k (entries st) /\
    (k <= length (entries st))%nat /\
    0 <= pbar st' - pbar st /\
    pbar st' - pbar st <= _ID st' - _ID st /\
    _ID st' - _ID st <= Z.of_nat k.
Proof.
  intros H. apply run_loop_progress in H. destruct H as (_ & _ & Hk).
  exact Hk.
Qed.


Section EngineAnswers.

(** An engine whose Prefill and Decode calls all answer. *)
Hypothesis Prefill_answers :
  forall (c : Client) (b : Batch), exists r, Prefill c b = Ok r.
Hypothesis Decode_answers :
  forall (c : Client) (items : list (ActiveItem CachedBatch)),
    exists r, Decode c items = Ok r.





End EngineAnswers.

End RunMore.

(** ** More on [warmup] *)

Lemma Zsum_app (l1 l2 : list Z) : Zsum (l1 ++ l2) = Zsum l1 + Zsum l2.
Proof. induction l1 as [|x l1 IH]; simpl; lia. Qed.

Section WarmupMore.

Variables (max_input_length max_batch_prefill_tokens max_total_tokens : Z).

Local Abbreviation wloop :=
  (warmup_loop max_input_length max_batch_prefill_tokens max_total_tokens).
Local Abbreviation truncate_length_of :=
  (fun r : Request => max_total_tokens - max_new_tokens (stopping_parameters r)).

(** The truncate lengths of the requests the loop appends add up to the
    tokens still missing when it starts. *)
Lemma warmup_loop_sum (fuel : nat) (n_tokens : Z) (requests0 out : list Request) :
  1 <= max_input_length ->
  wloop fuel n_tokens requests0 = Some out ->
  Zsum (map truncate_length_of out)
  = Zsum (map truncate_length_of requests0)
    + Z.max 0 (max_batch_prefill_tokens - n_tokens).
Proof.
  intros Hmil. revert n_tokens requests0.
  induction fuel as [|fuel IH]; intros n_tokens requests0; simpl;
    destruct (Z.ltb_spec n_tokens max_batch_prefill_tokens) as [Hlt|Hge];
    try discriminate; try (intros [= <-]; lia).
  intros Hout. apply IH in Hout. rewrite Hout.
  rewrite map_app, Zsum_app. cbn. lia.
Qed.

(** X16.  For [max_input_length >= 1] the truncate lengths behind the
    requests of the warmup batch ([max_total_tokens - max_new_tokens] of
    each request) add up to exactly [max_batch_prefill_tokens]: the last
    request is cut so that the batch does not overshoot. *)
Theorem warmup_truncate_lengths_sum (fuel : nat) (msg : WarmupRequest) :
  1 <= max_input_length ->
  0 <= max_batch_prefill_tokens ->
  warmup_message max_input_length max_batch_prefill_tokens max_total_tokens fuel
    = Some msg ->
  Zsum (map (fun r => max_total_tokens - max_new_tokens (stopping_parameters r))
            (requests (warmup_batch msg)))
  = max_batch_prefill_tokens.
Proof.
  intros Hmil Hmbpt. unfold warmup_message.
  destruct (wloop fuel 0 []) as [out|] eqn:Hloop; [|discriminate].
  intros [= <-]. cbn [warmup_batch requests].
  rewrite (warmup_loop_sum _ _ _ _ Hmil Hloop). cbn. lia.
Qed.

(** X17.  The loop of [warmup] ends, for some amount of fuel, exactly
    when [max_input_length >= 1] or [max_batch_prefill_tokens <= 0]: with a
    length of zero or less and a positive token count it never builds its
    batch. *)
Theorem warmup_message_ends_iff :
  (exists (fuel : nat) (msg : WarmupRequest),
     warmup_message max_input_length max_batch_prefill_tokens max_total_tokens
                    fuel = Some msg)
  <->
  (1 <= max_input_length \/ max_batch_prefill_tokens <= 0).
Proof.
  split.
  - intros (fuel & msg & H).
    destruct (Z.le_gt_cases 1 max_input_length) as [?|Hmil]; [now left|].
    destruct (Z.le_gt_cases max_batch_prefill_tokens 0) as [?|Hmbpt];
      [now right|].
    exfalso. unfold warmup_message in H.
    rewrite warmup_loop_no_progress in H by lia. discriminate.
  - intros [Hmil | Hmbpt].
    + destruct (Z.le_gt_cases max_batch_prefill_tokens 0) as [Hle|Hgt].
      * exists 0%nat. unfold warmup_message. simpl.
        destruct (Z.ltb_spec 0 max_batch_prefill_tokens); [lia|]. eauto.
      * set (n := (max_batch_prefill_tokens + max_input_length - 1)
                  / max_input_length).
        pose proof (Z.div_mod (max_batch_prefill_tokens + max_input_length - 1)
                      max_input_length ltac:(lia)) as Hdm.
        pose proof (Z.mod_pos_bound
                      (max_batch_prefill_tokens + max_input_length - 1)
                      max_input_length ltac:(lia)) as Hm.
        fold n in Hdm.
        assert (Hn1 : 1 <= n) by nia.
        exists (Z.to_nat n). unfold warmup_message.
        rewrite (warmup_loop_runs _ _ _ (Z.to_nat n)); try assumption.
        -- eauto.
        -- lia.
        -- intros _. rewrite Z2Nat.id by lia. nia.
        -- rewrite Z2Nat.id by lia. nia.
    + exists 0%nat. unfold warmup_message. simpl.
      destruct (Z.ltb_spec 0 max_batch_prefill_tokens); [lia|]. eauto.
Qed.

End WarmupMore.

(** * [get_model] *)

Section GetModel.

Context {Path : Type} `{!ModelFiles Path}.

Variables (model_id : string) (revision : option string) (sharded : bool)
          (quantize : option string) (compile : bool)
          (trust_remote_code : bool).

(** Case analysis on the tests of the chain that compare [t]. *)
Ltac split_model_type t :=
  repeat match goal with
         | |- context [String.eqb t ?s] =>
             let Hne := fresh "Hne" in
             destruct (String.eqb_spec t s) as [-> | Hne]; cbn
         end.

(** What is left to show at each return of the chain. *)
Ltac adapter_leaf :=
  intros [= <-]; cbn [model_class args]; split;
  [ intros Hin;
    first [ solve [eauto]
          | exfalso; cbn in Hin;
            repeat (destruct Hin as [Hin|Hin]; [discriminate|]);
            contradiction ]
  | intros Hn; first [ reflexivity | exfalso; apply Hn; cbn; tauto ] ].

(** X18.  A source other than ["s3"] and ["hub"] makes [get_model] raise
    [ValueError] with the message ["Unknown source "] and the source,
    whatever the other arguments: nothing is read and no dtype is looked
    at before. *)
Theorem get_model_unknown_source
    (adapter_id : string) (dtype : option string)
    (source adapter_source : string) :
  source <> "s3"%string ->
  source <> "hub"%string ->
  get_model model_id adapter_id revision sharded quantize compile dtype
            trust_remote_code source adapter_source
  = Throw (ValueError ("Unknown source " ++ source)%string).
Proof.
  intros Hs3 Hhub. unfold get_model.
  apply String.eqb_neq in Hs3, Hhub. now rewrite Hs3, Hhub.
Qed.

(** X19.  The order of the errors for a model of the hub: a failure to
    load the configuration is passed on; a configuration without
    ["model_type"] raises [KeyError], whatever the dtype; with a model type
    present, a dtype other than ["float16"] and ["bfloat16"] raises
    [RuntimeError], whatever the model type and the model id, supported or
    not. *)
Theorem get_model_error_order
    (adapter_id : string) (dtype : option string) (adapter_source : string) :
  let result :=
    get_model model_id adapter_id revision sharded quantize compile dtype
              trust_remote_code "hub" adapter_source in
  (forall e,
     get_config_dict (inr model_id) revision trust_remote_code = Throw e ->
     result = Throw e) /\
  (forall config,
     get_config_dict (inr model_id) revision trust_remote_code = Return config ->
     config !! "model_type"%string = None ->
     result = Throw (KeyError "model_type")) /\
  (forall config t d,
     get_config_dict (inr model_id) revision trust_remote_code = Return config ->
     config !! "model_type"%string = Some t ->
     dtype = Some d -> d <> "float16"%string -> d <> "bfloat16"%string ->
     result = Throw (RuntimeError ("Unknown dtype " ++ d)%string)).
Proof.
  intros result. unfold result, get_model. cbn [String.eqb Ascii.eqb Bool.eqb].
  split; [|split].
  - intros e ->. reflexivity.
  - intros config -> Hmt. cbn. now rewrite Hmt.
  - intros config t d -> Hmt -> H16 Hb16. cbn. rewrite Hmt. cbn.
    apply String.eqb_neq in H16, Hb16. now rewrite H16, Hb16.
Qed.

(** X20.  For a model of the hub whose id neither contains
    ["facebook/galactica"] nor starts with ["bigcode/"], with a dtype that
    is accepted: [get_model] returns a constructor call exactly when the
    model type of the configuration is one of the 23 names of
    [supported_model_types], and raises [ValueError] with
    ["Unsupported model type "] and the type otherwise. *)
Theorem get_model_supported_types
    (adapter_id : string) (dtype : option string) (adapter_source : string)
    (config : gmap string string) (t : string) :
  get_config_dict (inr model_id) revision trust_remote_code = Return config ->
  config !! "model_type"%string = Some t ->
  dtype = None \/ dtype = Some "float16"%string
  \/ dtype = Some "bfloat16"%string ->
  contains "facebook/galactica" model_id = false ->
  String.prefix "bigcode/" model_id = false ->
  let result :=
    get_model model_id adapter_id revision sharded quantize compile dtype
              trust_remote_code "hub" adapter_source in
  ((exists call, result = Return call) <-> In t supported_model_types) /\
  (~ In t supported_model_types ->
   result = Throw (ValueError ("Unsupported model type " ++ t)%string)).
Proof.
  intros Hcfg Hmt Hdtype Hgal Hbig result.
  unfold result, get_model. cbn [String.eqb Ascii.eqb Bool.eqb].
  rewrite Hcfg. cbn. rewrite Hmt. cbn.
  assert (Hd : exists d,
             match dtype with
             | Some d0 =>
                 if (d0 =? "float16")%string then Return torch_float16
                 else if (d0 =? "bfloat16")%string then Return torch_bfloat16
                 else Throw (RuntimeError ("Unknown dtype " ++ d0)%string)
             | None => Return torch_float16
             end = Return d).
  { destruct Hdtype as [-> | [-> | ->]]; cbn; eauto. }
  destruct Hd as [d ->]. cbn. rewrite Hgal, Hbig. cbn.
  split_model_type t;
    try (split; [split; [intros _; cbn; tauto | intros _; eauto]
                | intros Hn; exfalso; apply Hn; cbn; tauto]).
  split.
  - split; [intros [call Hc]; discriminate|].
    intros Hin. cbn in Hin.
    repeat (destruct Hin as [Hin|Hin]; [congruence|]). contradiction.
  - reflexivity.
Qed.

(** X21.  The test on the model id comes before every test on the model
    type: a hub model whose id contains ["facebook/galactica"] is built as
    [GalacticaSharded] whatever model type its configuration states.  The
    call passes [trust_remote_code] under the keyword
    ["dtypetrust_remote_code"], and no keyword ["trust_remote_code"]. *)
Theorem get_model_galactica_first
    (adapter_id : string) (dtype : option string) (adapter_source : string)
    (config : gmap string string) (t : string) :
  get_config_dict (inr model_id) revision trust_remote_code = Return config ->
  config !! "model_type"%string = Some t ->
  dtype = None \/ dtype = Some "float16"%string
  \/ dtype = Some "bfloat16"%string ->
  contains "facebook/galactica" model_id = true ->
  exists call,
    get_model model_id adapter_id revision sharded quantize compile dtype
              trust_remote_code "hub" adapter_source = Return call /\
    model_class call = GalacticaSharded /\
    args call = [PStr model_id; POptStr revision] /\
    map fst (kwargs call)
      = ["quantize"; "compile"; "dtype"; "dtypetrust_remote_code"]%string /\
    ~ In "trust_remote_code"%string (map fst (kwargs call)).
Proof.
  intros Hcfg Hmt Hdtype Hgal.
  unfold get_model. cbn [String.eqb Ascii.eqb Bool.eqb].
  rewrite Hcfg. cbn. rewrite Hmt. cbn.
  destruct Hdtype as [-> | [-> | ->]]; cbn; rewrite Hgal;
    (eexists; split; [reflexivity|]; cbn; repeat split;
     intros Hin; repeat (destruct Hin as [Hin|Hin]; [discriminate|]);
     contradiction).
Qed.

(** X22.  [adapter_id] and [adapter_source] reach the constructor only for
    the classes of [adapter_classes], as the second and third positional
    arguments.  For every other class they are dropped without notice:
    the call [get_model] returns is the same whatever adapter is asked
    for. *)
Theorem get_model_adapter_use
    (adapter_id adapter_source adapter_id' adapter_source' : string)
    (dtype : option string) (source : string) (call : ModelCall) :
  get_model model_id adapter_id revision sharded quantize compile dtype
            trust_remote_code source adapter_source = Return call ->
  (In (model_class call) adapter_classes ->
   exists model_id',
     args call = [PStr model_id'; PStr adapter_id; PStr adapter_source;
                  POptStr revision]) /\
  (~ In (model_class call) adapter_classes ->
   get_model model_id adapter_id' revision sharded quantize compile dtype
             trust_remote_code source adapter_source' = Return call).
Proof.
  unfold get_model.
  match goal with |- context [mbind _ ?c] => destruct c as [[config mid]|e] end;
    cbn [mbind mresult_bind]; [|discriminate].
  destruct (config !! "model_type"%string) as [t|];
    cbn [mbind mresult_bind]; [|discriminate].
  match goal with |- context [mbind _ ?c] => destruct c as [d|e] end;
    cbn [mbind mresult_bind]; [|discriminate].
  destruct (contains "facebook/galactica" mid); [adapter_leaf|].
  destruct (String.prefix "bigcode/" mid); cbn [orb];
    split_model_type t; try discriminate; adapter_leaf.
Qed.

End GetModel.

(** * The further properties on concrete inputs *)




Lemma next_batch_consecutive_witness :
  let e1 := create_entry "a" 1 16 2 in
  let e2 := create_entry "b" 1 16 2 in
  exists b1 b2 : Batch,
    batch_id b1 = 0 /\ batch_id b2 = 0 + 1 /\ 2 = 0 + 2 /\
    exists n : nat,
      (2 <= n <= length [e1; e2])%nat /\
      requests b1 ++ requests b2 = map request (take n [e1; e2]) /\
      [] = drop n [e1; e2].
Proof.
  intros e1 e2. eexists. eexists.
  eapply (next_batch_consecutive 16 1000 BLOCK_SIZE None [e1; e2] [e2] [] 0 1 2).
  - vm_compute. reflexivity.
  - vm_compute. reflexivity.
Defined.




Lemma warmup_truncate_lengths_sum_witness :
  exists msg : WarmupRequest,
    Zsum (map (fun r => 128 - max_new_tokens (stopping_parameters r))
              (requests (warmup_batch msg)))
    = 40.
Proof.
  eexists.
  eapply (warmup_truncate_lengths_sum 16 40 128 3); [lia | lia |].
  vm_compute. reflexivity.
Defined.



Lemma run_loop_outputs_grow_witness :
  let e1 := create_entry "a" 1 16 2 in
  let e2 := create_entry "b" 1 16 2 in
  let st := {| entries := [e1; e2]; _ID := 0;
               client := ([] : list (list (ActiveItem Z)));
               outputs := {[ 0 := ["old"%string] ]};
               batches := ([] : list (ActiveItem Z)); pbar := 0 |} in
  exists (st' : RunState (list (list (ActiveItem Z))) Z) (l' : list string),
    outputs st' !! 0 = Some (["old"%string] ++ l').
Proof.
  intros e1 e2 st. eexists.
  eapply (run_loop_outputs_grow 16 1000 None 3 st).
  - vm_compute. reflexivity.
  - vm_compute. reflexivity.
Defined.

Lemma run_loop_accounting_witness :
  let e1 := create_entry "a" 1 16 2 in
  let e2 := create_entry "b" 1 16 2 in
  let st := initial_state (Client := list (list (ActiveItem Z)))
              (CachedBatch := Z) [e1; e2] [] in
  exists (st' : RunState (list (list (ActiveItem Z))) Z) (k : nat),
    entries st' = drop k (entries st) /\
    (k <= length (entries st))%nat /\
    0 <= pbar st' - pbar st /\
    pbar st' - pbar st <= _ID st' - _ID st /\
    _ID st' - _ID st <= Z.of_nat k.
Proof.
  intros e1 e2 st. eexists.
  eapply (run_loop_accounting 16 1000 None 3 st).
  vm_compute. reflexivity.
Defined.




Lemma get_model_unknown_source_witness :
  get_model (ModelFiles0 := fixed_config ∅) "org/model" "" None false None false None
            false "gcs" "hub"
  = Throw (ValueError "Unknown source gcs").
Proof.
  apply (get_model_unknown_source (ModelFiles0 := fixed_config ∅)); discriminate.
Defined.

Lemma get_model_error_order_witness :
  get_model (ModelFiles0 := fixed_config {[ "model_type"%string := "nonesuch"%string ]})
            "org/model" "" None false None false (Some "int8"%string)
            false "hub" "hub"
  = Throw (RuntimeError "Unknown dtype int8").
Proof.
  apply (proj2 (proj2
           (get_model_error_order
              (ModelFiles0 := fixed_config {[ "model_type"%string := "nonesuch"%string ]})
              "org/model" None false None false false "" (Some "int8"%string)
              "hub"))
         {[ "model_type"%string := "nonesuch"%string ]}
         "nonesuch"%string "int8"%string);
    first [reflexivity | discriminate].
Defined.

Lemma get_model_supported_types_witness :
  let result :=
    get_model (ModelFiles0 := fixed_config {[ "model_type"%string := "llama"%string ]})
              "org/model" "" None false None false None false "hub" "hub" in
  ((exists call, result = Return call) <-> In "llama"%string supported_model_types)
  /\
  (~ In "llama"%string supported_model_types ->
   result = Throw (ValueError "Unsupported model type llama")).
Proof.
  apply (get_model_supported_types
           (ModelFiles0 := fixed_config {[ "model_type"%string := "llama"%string ]})
           "org/model" None false None false false "" None "hub"
           {[ "model_type"%string := "llama"%string ]} "llama"%string);
    first [reflexivity | now left].
Defined.

Lemma get_model_galactica_first_witness :
  exists call,
    get_model (ModelFiles0 := fixed_config {[ "model_type"%string := "opt"%string ]})
              "facebook/galactica-125m" "" None false None false None false
              "hub" "hub" = Return call /\
    model_class call = GalacticaSharded /\
    args call = [PStr "facebook/galactica-125m"; POptStr None] /\
    map fst (kwargs call)
      = ["quantize"; "compile"; "dtype"; "dtypetrust_remote_code"]%string /\
    ~ In "trust_remote_code"%string (map fst (kwargs call)).
Proof.
  apply (get_model_galactica_first
           (ModelFiles0 := fixed_config {[ "model_type"%string := "opt"%string ]})
           "facebook/galactica-125m" None false None false false "" None "hub"
           {[ "model_type"%string := "opt"%string ]} "opt"%string);
    first [reflexivity | now left].
Defined.

Lemma get_model_adapter_use_witness :
  let call := {| model_class := BLOOMSharded;
                 args := [PStr "org/model"; POptStr None];
                 kwargs := [("quantize"%string, POptStr None);
                            ("compile"%string, PBool false);
                            ("dtype"%string, PDtype torch_float16);
                            ("trust_remote_code"%string, PBool false)] |} in
  (In (model_class call) adapter_classes ->
   exists model_id',
     args call = [PStr model_id'; PStr "adapter-a"; PStr "hub"; POptStr None])
  /\
  (~ In (model_class call) adapter_classes ->
   get_model (ModelFiles0 := fixed_config {[ "model_type"%string := "bloom"%string ]})
             "org/model" "adapter-b" None false None false None false
             "hub" "s3" = Return call).
Proof.
  intros call.
  apply (get_model_adapter_use
           (ModelFiles0 := fixed_config {[ "model_type"%string := "bloom"%string ]})
           "org/model" None false None false false
           "adapter-a" "hub" "adapter-b" "s3" None "hub" call).
  reflexivity.
Defined.
